(** * One-time pad generator: a shallow embedding of [opt_gen.py]

    The development follows the source file top to bottom: the Python
    built-ins the program relies on ([range], slicing, [str.join],
    [secrets.choice]), then [generate_one_time_pad], then the handlers
    [on_generate] and [on_save] of [OTPGeneratorApp]. *)

From Stdlib Require Import ZArith Ascii String List Lia Bool Arith.
Import ListNotations.

Local Open Scope Z_scope.

(** ** Python values *)

(** A Python [str] is a sequence of characters. *)
Definition str := list ascii.

Definition len (s : str) : Z := Z.of_nat (List.length s).

Definition lit (s : string) : str := list_ascii_of_string s.

Definition space : ascii := " "%char.

(** The exceptions that the modelled code can raise. *)
Inductive exn : Type :=
| ValueError
| IndexError.

(** ** Computations: an entropy counter threaded through fallible code

    The operating system's entropy is a sequence of raw values; the state
    is the number of values consumed so far.  An exception leaves the
    counter where it was when the exception was raised. *)
Definition entropy := nat -> nat.

Definition M (A : Type) : Type := entropy -> nat -> (exn + A) * nat.

Definition ret {A} (a : A) : M A := fun _ s => (inr a, s).

Definition raise {A} (e : exn) : M A := fun _ s => (inl e, s).

Definition bind {A B} (m : M A) (k : A -> M B) : M B :=
  fun src s =>
    match m src s with
    | (inl e, s') => (inl e, s')
    | (inr a, s') => k a src s'
    end.

Notation "x <- m ;; k" := (bind m (fun x => k))
  (at level 61, m at next level, right associativity).

(** A [for] loop (or a generator expression) that collects one value per
    element, in order. *)
Fixpoint mapM {A B} (f : A -> M B) (l : list A) : M (list B) :=
  match l with
  | [] => ret []
  | a :: l' => b <- f a ;; bs <- mapM f l' ;; ret (b :: bs)
  end.

(** ** Built-ins *)

(** Number of elements of a range with positive step, from [lo] to [hi]. *)
Definition range_length (lo hi step : Z) : Z :=
  if lo <? hi then (hi - lo - 1) / step + 1 else 0.

(** [range(start, stop, step)], as a list. *)
Definition range (start stop step : Z) : M (list Z) :=
  if step =? 0 then raise ValueError
  else
    let n := if 0 <? step then range_length start stop step
             else range_length stop start (- step) in
    ret (map (fun k => start + Z.of_nat k * step) (seq 0 (Z.to_nat n))).

(** Slice bounds are clipped to the sequence; a negative bound counts from
    the end. *)
Definition adjust_index (n i : Z) : Z :=
  if i <? 0 then (if i + n <? 0 then 0 else i + n)
  else if n <=? i then n else i.

(** [s[i:j]] *)
Definition slice (s : str) (i j : Z) : str :=
  let lo := adjust_index (len s) i in
  let hi := adjust_index (len s) j in
  firstn (Z.to_nat (hi - lo)) (skipn (Z.to_nat lo) s).

(** [sep.join(parts)] *)
Fixpoint join (sep : str) (parts : list str) : str :=
  match parts with
  | [] => []
  | [p] => p
  | p :: rest => p ++ sep ++ join sep rest
  end.

(** [string.ascii_uppercase] *)
Definition ascii_uppercase : str := lit "ABCDEFGHIJKLMNOPQRSTUVWXYZ".

(** [randbelow(n)]: the next raw value of the source, brought into
    [0, n). One value is consumed per call. *)
Definition randbelow (n : nat) : M nat :=
  fun src s => (inr (Nat.modulo (src s) n), S s).

(** [secrets.choice(seq)]: [seq[randbelow(len(seq))]], [IndexError] on an
    empty sequence. *)
Definition choice (sq : str) : M ascii :=
  match sq with
  | [] => raise IndexError
  | _ =>
      i <- randbelow (List.length sq) ;;
      match nth_error sq i with
      | Some c => ret c
      | None => raise IndexError
      end
  end.

(** ** [generate_one_time_pad] *)

Definition generate_one_time_pad (length group_size line_length : Z)
  : M (list str) :=
  picks <- (idxs <- range 0 length 1 ;;
            mapM (fun _ => choice ascii_uppercase) idxs) ;;
  let all_chars := join [] (map (fun c => [c]) picks) in
  starts <- range 0 length line_length ;;
  mapM (fun i =>
          let line_segment := slice all_chars i (i + line_length) in
          offsets <- range 0 (len line_segment) group_size ;;
          ret (join [space]
                 (map (fun j => slice line_segment j (j + group_size))
                    offsets)))
       starts.

(** The pad drawn by a call: the first statement of the function alone. *)
Definition draw_pad (length : Z) : M str :=
  picks <- (idxs <- range 0 length 1 ;;
            mapM (fun _ => choice ascii_uppercase) idxs) ;;
  ret (join [] (map (fun c => [c]) picks)).

(** Lines 51-63 of the function: everything after the pad is drawn. *)
Definition format_lines (all_chars : str) (length group_size line_length : Z)
  : M (list str) :=
  starts <- range 0 length line_length ;;
  mapM (fun i =>
          let line_segment := slice all_chars i (i + line_length) in
          offsets <- range 0 (len line_segment) group_size ;;
          ret (join [space]
                 (map (fun j => slice line_segment j (j + group_size))
                    offsets)))
       starts.

(** What the formatting stage returns for a pad, read off a run that has
    no entropy at all. *)
Definition formatted (pad : str) (group_size line_length : Z)
  : exn + list str :=
  fst (format_lines pad (len pad) group_size line_length (fun _ => O) O).

(** A computation that draws nothing and whose result does not depend on
    the entropy source. *)
Definition entropy_free {A} (m : M A) : Prop :=
  exists r, forall src s, m src s = (r, s).

(** ** [OTPGeneratorApp.on_generate] *)

(** What the handler does to the world outside the text widget: the error
    dialogs it opens and the calls it makes to the generator. *)
Inductive event : Type :=
| ShowError (title message : string)
| CallGenerate (length group_size line_length : Z).

(** The application object: the three entry fields, the text widget, and
    the events so far. *)
Record app : Type := {
  length_var : str;
  group_size_var : str;
  line_length_var : str;
  output_text : str;
  events : list event
}.

Definition set_output (text : str) (a : app) : app :=
  {| length_var := length_var a;
     group_size_var := group_size_var a;
     line_length_var := line_length_var a;
     output_text := text;
     events := events a |}.

Definition record (e : event) (a : app) : app :=
  {| length_var := length_var a;
     group_size_var := group_size_var a;
     line_length_var := line_length_var a;
     output_text := output_text a;
     events := events a ++ [e] |}.

(** [self.output_text.insert(tk.END, text)] *)
Definition insert_end (text : str) (a : app) : app :=
  set_output (output_text a ++ text) a.

Definition newline : ascii := "010"%char.

(** The [try] block: the three conversions in order; [None] when one of
    them raises [ValueError].  [int] is the conversion built-in, [None]
    standing for its [ValueError]. *)
Definition parse_fields (int : str -> option Z) (a : app)
  : option (Z * Z * Z) :=
  match int (length_var a) with
  | None => None
  | Some length =>
      match int (group_size_var a) with
      | None => None
      | Some group_size =>
          match int (line_length_var a) with
          | None => None
          | Some line_length => Some (length, group_size, line_length)
          end
      end
  end.

(** The handler returns the exception that escaped it, if any, the
    application afterwards and the entropy counter. *)
Definition on_generate (int : str -> option Z) (a : app)
  : entropy -> nat -> option exn * app * nat :=
  fun src s =>
    let a := set_output [] a in
    match parse_fields int a with
    | None =>
        (None,
         record (ShowError "Invalid Input"
                   "Please enter valid integers for Length, Group Size, and Line Length.")
                a,
         s)
    | Some (length, group_size, line_length) =>
        if (length <=? 0) || (group_size <=? 0) || (line_length <=? 0)
        then
          (None,
           record (ShowError "Invalid Input"
                     "Values must be positive integers.") a,
           s)
        else
          let a := record (CallGenerate length group_size line_length) a in
          match generate_one_time_pad length group_size line_length src s with
          | (inl e, s') => (Some e, a, s')
          | (inr pad_lines, s') =>
              (None,
               fold_left (fun a line => insert_end (line ++ [newline]) a)
                         pad_lines a,
               s')
          end
    end.

(** A field that does not convert to an integer, or converts to zero or
    to a negative one. *)
Definition bad_field (int : str -> option Z) (text : str) : bool :=
  match int text with
  | None => true
  | Some v => v <=? 0
  end.

(** Plain decimal literals: an optional sign and one or more digits.  The
    built-in conversion accepts these (and more: surrounding blanks,
    underscores between digits). *)
Definition digit_of (c : ascii) : option Z :=
  let n := nat_of_ascii c in
  if ((48 <=? n) && (n <=? 57))%nat then Some (Z.of_nat (n - 48)) else None.

Fixpoint digits (acc : Z) (s : str) : option Z :=
  match s with
  | [] => Some acc
  | c :: s' =>
      match digit_of c with
      | Some d => digits (10 * acc + d) s'
      | None => None
      end
  end.

Definition decimal_int (s : str) : option Z :=
  match s with
  | [] => None
  | c :: t =>
      if Ascii.eqb c "-"%char then
        match t with [] => None | _ => option_map Z.opp (digits 0 t) end
      else if Ascii.eqb c "+"%char then
        match t with [] => None | _ => digits 0 t end
      else digits 0 s
  end.

(** ** [OTPGeneratorApp.__init__] *)

(** The application as the constructor leaves it: the three fields hold
    their defaults and the text widget is empty. *)
Definition init_app : app :=
  {| length_var := lit "1000";
     group_size_var := lit "5";
     line_length_var := lit "50";
     output_text := [];
     events := [] |}.

(** ** [OTPGeneratorApp.on_save] *)

(** [str.isspace], on the characters below 256. *)
Definition is_space (c : ascii) : bool :=
  let n := nat_of_ascii c in
  ((9 <=? n) && (n <=? 13) || (28 <=? n) && (n <=? 32)
   || (n =? 133) || (n =? 160))%nat.

Fixpoint lstrip (s : str) : str :=
  match s with
  | [] => []
  | c :: t => if is_space c then lstrip t else s
  end.

Definition rstrip (s : str) : str := rev (lstrip (rev s)).

(** [s.strip()] *)
Definition str_strip (s : str) : str := rstrip (lstrip s).

(** [self.output_text.get("1.0", tk.END)]: the text of the widget, with the
    newline the widget keeps at its end. *)
Definition get_all (a : app) : str := output_text a ++ [newline].

(** What the handler does outside the application object. *)
Inductive save_event : Type :=
| ShowInfo (title : string) (message : str)
| ShowSaveError (title : string) (message : str)
| AskSaveAsFilename (title : string)
| WriteFile (filename content : str).

(** What the handler meets outside: the answer to the file dialog (empty
    when the user cancels) and the outcome of opening and writing a file
    ([None] when both succeed, otherwise the text of the exception). *)
Record desktop : Type := {
  chosen_filename : str;
  write_file : str -> str -> option str
}.

Definition on_save (env : desktop) (a : app) : list save_event :=
  let pad_text := str_strip (get_all a) in
  match pad_text with
  | [] =>
      [ShowInfo "No Data" (lit "No one-time pad generated to save.")]
  | _ =>
      let filename := chosen_filename env in
      AskSaveAsFilename "Save One-Time Pad" ::
      match filename with
      | [] => []
      | _ =>
          match write_file env filename pad_text with
          | None =>
              [WriteFile filename pad_text;
               ShowInfo "Success"
                 (lit "Pad successfully saved to: " ++ filename)]
          | Some reason => [ShowSaveError "Error Saving File" reason]
          end
      end
  end.

(** ** Sample inputs *)

Definition demo_app (length group_size line_length : string) : app :=
  {| length_var := lit length;
     group_size_var := lit group_size;
     line_length_var := lit line_length;
     output_text := lit "OLD PAD";
     events := [] |}.

Definition demo_src : entropy := fun k => (7 * k + 3)%nat.

Definition other_src : entropy := fun k => (7 * k + 46)%nat.

(** A desktop where the user picks [pad.txt] and the disk accepts it, and
    one where the disk is full. *)
Definition demo_desktop : desktop :=
  {| chosen_filename := lit "pad.txt"; write_file := fun _ _ => None |}.

Definition full_disk : desktop :=
  {| chosen_filename := lit "pad.txt";
     write_file := fun _ _ => Some (lit "No space left on device") |}.

(** ** Reference definitions for the statements

    These are not part of the program.  [piece], [piece_count] and
    [pieces] say what it is to cut a sequence into consecutive chunks of
    [n] symbols; [format_pad] is the two-level cutting the specification
    describes; [ceil_div] is the ceiling of a quotient; [is_upper] and
    [strip] recognise letters and remove separators. *)

(** The [k]-th chunk of [n] symbols of [s]. *)
Definition piece (n : nat) (s : str) (k : nat) : str :=
  firstn n (skipn (k * n) s).

(** How many chunks of [n] symbols a sequence of [a] symbols has. *)
Definition piece_count (n a : nat) : nat :=
  match a with
  | O => O
  | S a' => S (Nat.div a' n)
  end.

Definition pieces (n : nat) (s : str) : list str :=
  map (piece n s) (seq 0 (piece_count n (List.length s))).

(** The letter selected by the [k]-th raw value of the source. *)
Definition letter (src : entropy) (k : nat) : ascii :=
  nth (Nat.modulo (src k) 26) ascii_uppercase "A"%char.

(** The [n] letters selected from position [s] of the source on. *)
Definition pad_of (src : entropy) (s n : nat) : str :=
  map (letter src) (seq s n).

Definition is_upper (c : ascii) : bool :=
  (65 <=? nat_of_ascii c)%nat && (nat_of_ascii c <=? 90)%nat.

Definition non_space (c : ascii) : bool := negb (Ascii.eqb c space).

(** Removing the separators of a line. *)
Definition strip (s : str) : str := filter non_space s.

(** Chunks of [line_length] symbols, each cut into groups of [group_size]
    symbols joined by a space. *)
Definition format_pad (group_size line_length : nat) (all_chars : str)
  : list str :=
  map (fun seg => join [space] (pieces group_size seg))
      (pieces line_length all_chars).

(** The ceiling of [a / b], from floor division. *)
Definition ceil_div (a b : Z) : Z := - ((- a) / b).

(** ** Properties of the built-ins *)

Lemma bind_ok {A B} (m : M A) (k : A -> M B) src s a s' :
  m src s = (inr a, s') -> bind m k src s = k a src s'.
Proof. unfold bind; intros ->; reflexivity. Qed.

Lemma bind_err {A B} (m : M A) (k : A -> M B) src s e s' :
  m src s = (inl e, s') -> bind m k src s = (inl e, s').
Proof. unfold bind; intros ->; reflexivity. Qed.

Section Loops.
Context {A B : Type}.

(** A loop whose body neither fails nor draws is a [map]. *)
Lemma mapM_pure (f : A -> M B) (g : A -> B) src s l :
  (forall a, In a l -> f a src s = (inr (g a), s)) ->
  mapM f l src s = (inr (map g l), s).
Proof.
  induction l as [|a l IH]; intros Hf; simpl; [reflexivity|].
  rewrite (bind_ok _ _ _ _ (g a) s) by (apply Hf; now left).
  rewrite (bind_ok _ _ _ _ (map g l) s); [reflexivity|].
  apply IH; intros b Hb; apply Hf; now right.
Qed.
End Loops.

Lemma range_nonzero start stop step src s :
  step <> 0 ->
  exists l, range start stop step src s = (inr l, s).
Proof.
  intros H; unfold range.
  destruct (Z.eqb_spec step 0); [contradiction|]; eexists; reflexivity.
Qed.

Lemma range_zero start stop src s :
  range start stop 0 src s = (inl ValueError, s).
Proof. reflexivity. Qed.

Lemma range_length_nat (a n : nat) :
  (0 < n)%nat ->
  Z.to_nat (range_length 0 (Z.of_nat a) (Z.of_nat n)) = piece_count n a.
Proof.
  intros Hn; unfold range_length, piece_count.
  destruct a as [|a]; [reflexivity|].
  destruct (Z.ltb_spec 0 (Z.of_nat (S a))); [|lia].
  replace (Z.of_nat (S a) - 0 - 1) with (Z.of_nat a) by lia.
  rewrite <- Nat2Z.inj_div.
  lia.
Qed.

Lemma range_from_zero (a n : nat) src s :
  (0 < n)%nat ->
  range 0 (Z.of_nat a) (Z.of_nat n) src s =
  (inr (map (fun k => Z.of_nat (k * n)) (seq 0 (piece_count n a))), s).
Proof.
  intros Hn; unfold range.
  destruct (Z.eqb_spec (Z.of_nat n) 0); [lia|].
  destruct (Z.ltb_spec 0 (Z.of_nat n)); [|lia].
  rewrite range_length_nat by assumption.
  unfold ret; do 2 f_equal.
  apply map_ext; intros k; lia.
Qed.

Lemma adjust_index_nonneg n i :
  0 <= i -> adjust_index n i = if n <=? i then n else i.
Proof.
  intros H; unfold adjust_index.
  destruct (Z.ltb_spec i 0); [lia|reflexivity].
Qed.

Lemma firstn_skipn_clip {X} (l : list X) (a b c : nat) :
  (List.length l <= a + b)%nat -> (List.length l <= a + c)%nat ->
  firstn b (skipn a l) = firstn c (skipn a l).
Proof.
  intros Hb Hc.
  rewrite !firstn_all2; try reflexivity; rewrite length_skipn; lia.
Qed.

Lemma slice_nat (s : str) (i n : nat) :
  slice s (Z.of_nat i) (Z.of_nat i + Z.of_nat n) = firstn n (skipn i s).
Proof.
  unfold slice, len.
  rewrite !adjust_index_nonneg by lia.
  set (L := List.length s).
  destruct (Z.leb_spec (Z.of_nat L) (Z.of_nat i)) as [Hi|Hi].
  - rewrite !skipn_all2 by (fold L; lia).
    now rewrite !firstn_nil.
  - rewrite Nat2Z.id.
    destruct (Z.leb_spec (Z.of_nat L) (Z.of_nat i + Z.of_nat n)) as [Hj|Hj].
    + apply firstn_skipn_clip; fold L; lia.
    + f_equal; lia.
Qed.

Lemma join_singletons (l : str) : join [] (map (fun c => [c]) l) = l.
Proof.
  induction l as [|c l IH]; [reflexivity|].
  simpl map; simpl join. 
  destruct l as [|d l]; [reflexivity|].
  simpl in IH |- *. now rewrite IH.
Qed.

(** ** The two stages of [generate_one_time_pad] *)

Lemma choice_upper src s :
  choice ascii_uppercase src s = (inr (letter src s), S s).
Proof.
  unfold choice, letter.
  change ascii_uppercase with ("A"%char :: tl ascii_uppercase) at 1.
  cbv beta iota.
  rewrite (bind_ok _ _ src s (Nat.modulo (src s) 26) (S s)) by reflexivity.
  rewrite (nth_error_nth' ascii_uppercase "A"%char).
  - reflexivity.
  - change (List.length ascii_uppercase) with 26%nat.
    apply Nat.mod_upper_bound; discriminate.
Qed.

Lemma draw_letters {X} (idxs : list X) src s :
  mapM (fun _ => choice ascii_uppercase) idxs src s =
  (inr (pad_of src s (List.length idxs)), (s + List.length idxs)%nat).
Proof.
  revert s; induction idxs as [|x idxs IH]; intros s.
  - simpl. unfold ret, pad_of. now rewrite Nat.add_0_r.
  - cbn [mapM].
    rewrite (bind_ok _ _ src s _ _ (choice_upper src s)).
    rewrite (bind_ok _ _ src (S s) _ _ (IH (S s))).
    unfold ret, pad_of; simpl. do 2 f_equal. lia.
Qed.

Lemma range_count length src s :
  exists idxs, range 0 length 1 src s = (inr idxs, s) /\
               List.length idxs = Z.to_nat length.
Proof.
  unfold range.
  change (1 =? 0) with false; change (0 <? 1) with true; cbv iota.
  eexists; split; [reflexivity|].
  rewrite length_map, length_seq.
  unfold range_length.
  destruct (Z.ltb_spec 0 length); [rewrite Z.div_1_r|]; lia.
Qed.

(** The first statement draws one letter per requested symbol. *)
Lemma draw_pad_eq length src s :
  draw_pad length src s =
  (inr (pad_of src s (Z.to_nat length)), (s + Z.to_nat length)%nat).
Proof.
  unfold draw_pad.
  destruct (range_count length src s) as (idxs & Hr & Hl).
  erewrite bind_ok.
  2:{ erewrite bind_ok by exact Hr. apply draw_letters. }
  unfold ret. now rewrite join_singletons, Hl.
Qed.

Lemma length_pad_of src s n : List.length (pad_of src s n) = n.
Proof. unfold pad_of. now rewrite length_map, length_seq. Qed.

Lemma group_line (group_size : nat) (seg : str) src s :
  (0 < group_size)%nat ->
  (offsets <- range 0 (len seg) (Z.of_nat group_size) ;;
   ret (join [space]
          (map (fun j => slice seg j (j + Z.of_nat group_size)) offsets)))
    src s
  = (inr (join [space] (pieces group_size seg)), s).
Proof.
  intros Hg.
  erewrite bind_ok by (apply range_from_zero; assumption).
  unfold ret, pieces. rewrite map_map. do 3 f_equal.
  apply map_ext; intros k.
  apply slice_nat.
Qed.

Lemma generate_nat (a g n : nat) src s :
  (0 < g)%nat -> (0 < n)%nat ->
  generate_one_time_pad (Z.of_nat a) (Z.of_nat g) (Z.of_nat n) src s =
  (inr (format_pad g n (pad_of src s a)), (s + a)%nat).
Proof.
  intros Hg Hn.
  unfold generate_one_time_pad.
  destruct (range_count (Z.of_nat a) src s) as (idxs & Hr & Hlen).
  rewrite Nat2Z.id in Hlen.
  erewrite bind_ok.
  2:{ erewrite bind_ok by exact Hr. apply draw_letters. }
  rewrite join_singletons, Hlen.
  erewrite bind_ok by (apply range_from_zero; assumption).
  rewrite (mapM_pure _
             (fun i => join [space]
                         (pieces g (slice (pad_of src s a) i (i + Z.of_nat n))))).
  - unfold format_pad; unfold pieces at 3.
    rewrite !map_map, length_pad_of. do 2 f_equal.
    apply map_ext; intros k. unfold piece.
    now rewrite slice_nat.
  - intros i _. apply group_line. assumption.
Qed.

(** For arguments in the documented domain (and for [length = 0]) the
    function draws the pad and then formats it. *)
Lemma generate_eq length group_size line_length src s :
  0 <= length -> 0 < group_size -> 0 < line_length ->
  generate_one_time_pad length group_size line_length src s =
  (inr (format_pad (Z.to_nat group_size) (Z.to_nat line_length)
          (pad_of src s (Z.to_nat length))),
   (s + Z.to_nat length)%nat).
Proof.
  intros Hl Hg Hn.
  rewrite <- (Z2Nat.id length) at 1 by assumption.
  rewrite <- (Z2Nat.id line_length) at 1 by lia.
  rewrite <- (Z2Nat.id group_size) at 1 by lia.
  apply generate_nat; lia.
Qed.

(** ** Cutting a sequence into pieces *)

Section Pieces.
Variable n : nat.
Hypothesis n_pos : (0 < n)%nat.

Lemma piece_count_bounds (a : nat) :
  (0 < a)%nat ->
  ((piece_count n a - 1) * n < a <= piece_count n a * n)%nat.
Proof using n_pos.
  intros Ha. destruct a as [|a]; [lia|].
  unfold piece_count.
  pose proof (Nat.div_mod_eq a n) as E.
  pose proof (Nat.mod_upper_bound a n ltac:(lia)) as U.
  nia.
Qed.

Lemma piece_count_covers (a : nat) : (a <= piece_count n a * n)%nat.
Proof using n_pos.
  destruct a as [|a]; [simpl; lia|].
  apply piece_count_bounds; lia.
Qed.

Lemma length_pieces (s : str) :
  List.length (pieces n s) = piece_count n (List.length s).
Proof. unfold pieces. now rewrite length_map, length_seq. Qed.

Lemma nth_pieces (s : str) (k : nat) :
  (k < piece_count n (List.length s))%nat ->
  nth k (pieces n s) [] = piece n s k.
Proof.
  intros Hk. unfold pieces.
  rewrite (nth_indep _ [] (piece n s 0%nat))
    by (rewrite length_map, length_seq; exact Hk).
  rewrite (map_nth (piece n s)).
  now rewrite seq_nth.
Qed.

Lemma length_piece (s : str) (k : nat) :
  List.length (piece n s k) = Nat.min n (List.length s - k * n).
Proof. unfold piece. now rewrite length_firstn, length_skipn. Qed.

Lemma firstn_plus {X} (l : list X) (a b : nat) :
  firstn (a + b) l = firstn a l ++ firstn b (skipn a l).
Proof.
  revert l; induction a as [|a IH]; intros l; [reflexivity|].
  destruct l as [|x l]; [simpl; now rewrite firstn_nil|].
  simpl. now rewrite IH.
Qed.

Lemma concat_first_pieces (s : str) (m : nat) :
  concat (map (piece n s) (seq 0 m)) = firstn (m * n) s.
Proof.
  induction m as [|m IH]; [reflexivity|].
  rewrite seq_S, map_app, concat_app, IH. simpl.
  rewrite app_nil_r. unfold piece.
  rewrite <- firstn_plus. f_equal. lia.
Qed.

(** The pieces, put back together, are the sequence. *)
Lemma concat_pieces (s : str) : concat (pieces n s) = s.
Proof using n_pos.
  unfold pieces. rewrite concat_first_pieces.
  apply firstn_all2, piece_count_covers.
Qed.

Lemma piece_nonempty (s : str) (k : nat) :
  (k < piece_count n (List.length s))%nat ->
  (1 <= List.length (piece n s k))%nat.
Proof using n_pos.
  intros Hk. rewrite length_piece.
  assert (0 < List.length s)%nat as Hs
      by (destruct (List.length s); [simpl in Hk; lia | lia]).
  pose proof (piece_count_bounds _ Hs). nia.
Qed.

Lemma piece_full (s : str) (k : nat) :
  (S k < piece_count n (List.length s))%nat ->
  List.length (piece n s k) = n.
Proof using n_pos.
  intros Hk. rewrite length_piece.
  assert (0 < List.length s)%nat as Hs
      by (destruct (List.length s); [simpl in Hk; lia | lia]).
  pose proof (piece_count_bounds _ Hs). nia.
Qed.

Lemma piece_last (s : str) (k : nat) :
  S k = piece_count n (List.length s) ->
  List.length (piece n s k) =
  if (Nat.modulo (List.length s) n =? 0)%nat then n
  else Nat.modulo (List.length s) n.
Proof using n_pos.
  intros Hk. rewrite length_piece.
  destruct (List.length s) as [|a] eqn:Ea; [discriminate|].
  simpl in Hk. injection Hk as ->.
  pose proof (Nat.div_mod_eq a n) as E.
  pose proof (Nat.mod_upper_bound a n ltac:(lia)) as U.
  pose proof (Nat.div_mod_eq (S a) n) as E'.
  pose proof (Nat.mod_upper_bound (S a) n ltac:(lia)) as U'.
  destruct (Nat.eqb_spec (Nat.modulo (S a) n) 0) as [Z0|Z0].
  - assert (S a / n = S (a / n))%nat by nia. nia.
  - assert (S a / n = a / n)%nat by nia. nia.
Qed.
End Pieces.

(** ** Letters and separators *)

Lemma in_firstn {X} (x : X) (n : nat) (l : list X) :
  In x (firstn n l) -> In x l.
Proof.
  intros H. rewrite <- (firstn_skipn n l). apply in_or_app; now left.
Qed.

Lemma in_skipn {X} (x : X) (n : nat) (l : list X) :
  In x (skipn n l) -> In x l.
Proof.
  intros H. rewrite <- (firstn_skipn n l). apply in_or_app; now right.
Qed.

Lemma in_piece (c : ascii) (n k : nat) (s : str) :
  In c (piece n s k) -> In c s.
Proof. unfold piece. intros H. eapply in_skipn, in_firstn, H. Qed.

Lemma alphabet_upper : forallb is_upper ascii_uppercase = true.
Proof. reflexivity. Qed.

Lemma letter_upper src k : is_upper (letter src k) = true.
Proof.
  pose proof alphabet_upper as H.
  rewrite forallb_forall in H. apply H.
  unfold letter. apply nth_In.
  change (List.length ascii_uppercase) with 26%nat.
  apply Nat.mod_upper_bound; discriminate.
Qed.

Lemma pad_upper src s n c : In c (pad_of src s n) -> is_upper c = true.
Proof.
  unfold pad_of. rewrite in_map_iff.
  intros (k & <- & _). apply letter_upper.
Qed.

Lemma upper_non_space c : is_upper c = true -> non_space c = true.
Proof.
  unfold non_space. destruct (Ascii.eqb_spec c space) as [->|]; [|reflexivity].
  discriminate.
Qed.

Lemma non_space_spec c : non_space c = true <-> c <> space.
Proof.
  unfold non_space.
  destruct (Ascii.eqb_spec c space); simpl; split; congruence.
Qed.

Lemma strip_clean (s : str) :
  (forall c, In c s -> non_space c = true) -> strip s = s.
Proof.
  induction s as [|c s IH]; intros H; [reflexivity|].
  unfold strip in *; simpl.
  rewrite (H c) by now left.
  f_equal. apply IH. intros d Hd. apply H. now right.
Qed.

Lemma strip_app (a b : str) : strip (a ++ b) = strip a ++ strip b.
Proof. apply filter_app. Qed.

(** Stripping a joined line leaves the symbols of its groups. *)
Lemma strip_join (parts : list str) :
  strip (join [space] parts) = strip (concat parts).
Proof.
  induction parts as [|p rest IH]; [reflexivity|].
  destruct rest as [|q rest].
  - simpl. now rewrite app_nil_r.
  - change (join [space] (p :: q :: rest))
      with (p ++ [space] ++ join [space] (q :: rest)).
    change (concat (p :: q :: rest)) with (p ++ concat (q :: rest)).
    rewrite !strip_app, IH. reflexivity.
Qed.

Lemma strip_grouped (g : nat) (seg : str) :
  (0 < g)%nat -> strip (join [space] (pieces g seg)) = strip seg.
Proof. intros Hg. now rewrite strip_join, concat_pieces. Qed.

Lemma strip_format (g n : nat) (pad : str) :
  (0 < g)%nat -> (0 < n)%nat ->
  strip (concat (format_pad g n pad)) = strip pad.
Proof.
  intros Hg Hn. unfold format_pad.
  rewrite <- (concat_pieces n Hn pad) at 2.
  induction (pieces n pad) as [|seg segs IH]; [reflexivity|].
  simpl. now rewrite !strip_app, IH, strip_grouped.
Qed.

(** ** Round trip and shape of the output *)

(** C1: for positive [length], [group_size] and [line_length], the lines
    returned by [generate_one_time_pad], concatenated in order and with
    the spaces removed, are exactly the pad that was drawn; the pad has
    [length] characters and each of them is an uppercase letter A-Z. *)
Theorem stripped_lines_are_the_pad src s length group_size line_length :
  0 < length -> 0 < group_size -> 0 < line_length ->
  exists pad lines s',
    draw_pad length src s = (inr pad, s') /\
    generate_one_time_pad length group_size line_length src s
      = (inr lines, s') /\
    strip (concat lines) = pad /\
    len pad = length /\
    Forall (fun c => is_upper c = true) pad.
Proof.
  intros Hl Hg Hn.
  exists (pad_of src s (Z.to_nat length)).
  eexists; eexists.
  split; [apply draw_pad_eq|].
  split; [apply generate_eq; lia|].
  split; [|split].
  - rewrite strip_format by lia.
    apply strip_clean. intros c Hc.
    eapply upper_non_space, pad_upper, Hc.
  - unfold len. rewrite length_pad_of. lia.
  - apply Forall_forall. intros c Hc. eapply pad_upper, Hc.
Qed.

Lemma stripped_lines_are_the_pad_witness :
  0 < 12 /\ 0 < 5 /\ 0 < 10 /\
  exists pad lines s',
    draw_pad 12 demo_src 0%nat = (inr pad, s') /\
    generate_one_time_pad 12 5 10 demo_src 0%nat = (inr lines, s') /\
    strip (concat lines) = pad /\
    len pad = 12 /\
    Forall (fun c => is_upper c = true) pad.
Proof.
  split; [reflexivity|]. split; [reflexivity|]. split; [reflexivity|].
  apply (stripped_lines_are_the_pad demo_src 0%nat 12 5 10); reflexivity.
Defined.

(** C10: with [length = 0] and positive [group_size] and [line_length]
    the function returns the empty list; no exception is raised and no
    entropy is consumed. *)
Theorem zero_length_gives_no_lines src s group_size line_length :
  0 < group_size -> 0 < line_length ->
  generate_one_time_pad 0 group_size line_length src s = (inr [], s).
Proof.
  intros Hg Hn.
  rewrite generate_eq by lia.
  simpl. now rewrite Nat.add_0_r.
Qed.

Lemma zero_length_gives_no_lines_witness :
  0 < 5 /\ 0 < 10 /\
  generate_one_time_pad 0 5 10 demo_src 0%nat = (inr [], 0%nat).
Proof.
  split; [reflexivity|]. split; [reflexivity|].
  apply (zero_length_gives_no_lines demo_src 0%nat 5 10); reflexivity.
Defined.

Lemma ceil_div_spec (a b : Z) :
  0 < b -> b * (ceil_div a b - 1) < a <= b * ceil_div a b.
Proof.
  intros Hb. unfold ceil_div.
  pose proof (Z.div_mod (- a) b ltac:(lia)) as E.
  pose proof (Z.mod_pos_bound (- a) b Hb) as U.
  nia.
Qed.

Lemma piece_count_ceil (n a : nat) :
  (0 < n)%nat ->
  Z.of_nat (piece_count n a) = ceil_div (Z.of_nat a) (Z.of_nat n).
Proof.
  intros Hn.
  pose proof (ceil_div_spec (Z.of_nat a) (Z.of_nat n) ltac:(lia)) as C.
  destruct a as [|a].
  - simpl piece_count. nia.
  - pose proof (piece_count_bounds n Hn (S a) ltac:(lia)) as P.
    set (c := ceil_div _ _) in *. set (m := piece_count _ _) in *.
    assert (0 < m)%nat by (subst m; simpl; lia).
    nia.
Qed.

Lemma length_format (g n : nat) (pad : str) :
  List.length (format_pad g n pad) = piece_count n (List.length pad).
Proof. unfold format_pad. now rewrite length_map, length_pieces. Qed.

Lemma nth_format (g n k : nat) (pad : str) :
  (0 < n)%nat ->
  (k < piece_count n (List.length pad))%nat ->
  nth k (format_pad g n pad) [] = join [space] (pieces g (piece n pad k)).
Proof.
  intros Hn Hk. unfold format_pad.
  rewrite (nth_indep _ [] (join [space] (pieces g [])))
    by (rewrite length_map, length_pieces; exact Hk).
  rewrite (map_nth (fun seg => join [space] (pieces g seg))).
  now rewrite nth_pieces.
Qed.

(** C3: for positive arguments the number of lines returned is
    [ceil(length / line_length)]. *)
Theorem line_count_is_ceiling src s length group_size line_length :
  0 < length -> 0 < group_size -> 0 < line_length ->
  exists lines s',
    generate_one_time_pad length group_size line_length src s
      = (inr lines, s') /\
    Z.of_nat (List.length lines) = ceil_div length line_length /\
    line_length * (Z.of_nat (List.length lines) - 1) < length
      <= line_length * Z.of_nat (List.length lines).
Proof.
  intros Hl Hg Hn.
  eexists; eexists. split; [apply generate_eq; lia|].
  rewrite length_format, length_pad_of, piece_count_ceil by lia.
  rewrite !Z2Nat.id by lia.
  split; [reflexivity|]. apply ceil_div_spec, Hn.
Qed.

Lemma line_count_is_ceiling_witness :
  0 < 12 /\ 0 < 5 /\ 0 < 10 /\
  exists lines s',
    generate_one_time_pad 12 5 10 demo_src 0%nat = (inr lines, s') /\
    Z.of_nat (List.length lines) = ceil_div 12 10 /\
    10 * (Z.of_nat (List.length lines) - 1) < 12
      <= 10 * Z.of_nat (List.length lines).
Proof.
  split; [reflexivity|]. split; [reflexivity|]. split; [reflexivity|].
  apply (line_count_is_ceiling demo_src 0%nat 12 5 10); reflexivity.
Defined.

(** C4: for positive arguments there are [ceil(length / line_length)]
    lines, at least one; every line but the last holds exactly
    [line_length] symbols once the spaces are removed, and the last line
    holds [length mod line_length] of them, or [line_length] when
    [line_length] divides [length]. *)
Theorem symbols_per_line src s length group_size line_length :
  0 < length -> 0 < group_size -> 0 < line_length ->
  exists lines s',
    generate_one_time_pad length group_size line_length src s
      = (inr lines, s') /\
    lines <> [] /\
    Z.of_nat (List.length lines) = ceil_div length line_length /\
    (forall k, (S k < List.length lines)%nat ->
       len (strip (nth k lines [])) = line_length) /\
    len (strip (last lines [])) =
      (if length mod line_length =? 0 then line_length
       else length mod line_length).
Proof.
  intros Hl Hg Hn.
  eexists; eexists. split; [apply generate_eq; lia|].
  set (n := Z.to_nat line_length). set (g := Z.to_nat group_size).
  set (pad := pad_of src s (Z.to_nat length)).
  assert (Hn' : (0 < n)%nat) by (subst n; lia).
  assert (Hg' : (0 < g)%nat) by (subst g; lia).
  assert (Hpad : Z.of_nat (List.length pad) = length)
    by (subst pad; rewrite length_pad_of; lia).
  assert (Hcount : (0 < piece_count n (List.length pad))%nat)
    by (pose proof (piece_count_covers n Hn' (List.length pad)); nia).
  assert (Hstrip : forall k, (k < piece_count n (List.length pad))%nat ->
            strip (nth k (format_pad g n pad) []) = piece n pad k).
  { intros k Hk. rewrite nth_format, strip_grouped by assumption.
    apply strip_clean. intros c Hc.
    eapply upper_non_space, pad_upper, in_piece, Hc. }
  split; [|split; [|split]].
  - intros E. apply (f_equal (@List.length str)) in E.
    rewrite length_format in E. simpl in E. lia.
  - rewrite length_format, piece_count_ceil by assumption.
    rewrite Hpad. subst n. now rewrite Z2Nat.id by lia.
  - intros k Hk. rewrite length_format in Hk.
    rewrite Hstrip by lia. unfold len.
    rewrite piece_full by assumption. subst n; lia.
  - destruct (piece_count n (List.length pad)) as [|m] eqn:Em; [lia|].
    assert (Hlast : last (format_pad g n pad) [] = nth m (format_pad g n pad) []).
    { unfold format_pad, pieces. rewrite Em, seq_S, !map_app. simpl.
      rewrite last_last.
      rewrite app_nth2; rewrite !length_map, length_seq; [|lia].
      now rewrite Nat.sub_diag. }
    rewrite Hlast, Hstrip by lia. unfold len.
    rewrite piece_last by (assumption || (symmetry; exact Em)).
    rewrite <- Hpad. replace line_length with (Z.of_nat n) by (subst n; lia).
    rewrite <- Nat2Z.inj_mod.
    destruct (Nat.eqb_spec (Nat.modulo (List.length pad) n) 0) as [E|E].
    + rewrite E. reflexivity.
    + destruct (Z.eqb_spec (Z.of_nat (Nat.modulo (List.length pad) n)) 0);
        [lia|reflexivity].
Qed.

Lemma symbols_per_line_witness :
  0 < 12 /\ 0 < 5 /\ 0 < 10 /\
  exists lines s',
    generate_one_time_pad 12 5 10 demo_src 0%nat = (inr lines, s') /\
    lines <> [] /\
    Z.of_nat (List.length lines) = ceil_div 12 10 /\
    (forall k, (S k < List.length lines)%nat ->
       len (strip (nth k lines [])) = 10) /\
    len (strip (last lines [])) =
      (if 12 mod 10 =? 0 then 10 else 12 mod 10).
Proof.
  split; [reflexivity|]. split; [reflexivity|]. split; [reflexivity|].
  apply (symbols_per_line demo_src 0%nat 12 5 10); reflexivity.
Defined.

(** ** Groups within a line *)

Lemma last_pieces (g m : nat) (seg : str) :
  last (map (piece g seg) (seq 0 (S m))) [] = piece g seg m.
Proof. rewrite seq_S, map_app. simpl. apply last_last. Qed.

Lemma piece_count_pos (g a : nat) : (0 < a)%nat -> (0 < piece_count g a)%nat.
Proof. destruct a; simpl; lia. Qed.




Lemma single_group (g : nat) (seg : str) :
  (0 < List.length seg <= g)%nat -> pieces g seg = [seg].
Proof.
  intros [Hs Hg]. unfold pieces.
  destruct (List.length seg) as [|a] eqn:E; [lia|].
  simpl piece_count. rewrite Nat.div_small by lia.
  simpl. unfold piece. simpl.
  now rewrite firstn_all2 by lia.
Qed.

(** C6: for positive [length] and [line_length] and
    [group_size >= line_length], no returned line contains a space: each
    line is its chunk of the pad, a single group. *)
Theorem wide_groups_leave_lines_unbroken src s length group_size line_length :
  0 < length -> 0 < line_length -> line_length <= group_size ->
  exists pad lines s',
    draw_pad length src s = (inr pad, s') /\
    generate_one_time_pad length group_size line_length src s
      = (inr lines, s') /\
    lines = pieces (Z.to_nat line_length) pad /\
    forall line, In line lines -> ~ In space line.
Proof.
  intros Hl Hn Hg.
  exists (pad_of src s (Z.to_nat length)). eexists; eexists.
  split; [apply draw_pad_eq|].
  split; [apply generate_eq; lia|].
  set (n := Z.to_nat line_length). set (g := Z.to_nat group_size).
  set (pad := pad_of src s (Z.to_nat length)).
  assert (Hn' : (0 < n)%nat) by (subst n; lia).
  assert (Hgn : (n <= g)%nat) by (subst n g; lia).
  assert (E : format_pad g n pad = pieces n pad).
  { unfold format_pad. rewrite <- (map_id (pieces n pad)) at 2.
    apply map_ext_in. intros seg Hin.
    unfold pieces in Hin. rewrite in_map_iff in Hin.
    destruct Hin as (k & <- & Hk). rewrite in_seq in Hk.
    rewrite single_group; [reflexivity|].
    pose proof (piece_nonempty n Hn' pad k ltac:(lia)).
    rewrite length_piece in *. lia. }
  split; [exact E|].
  rewrite E. intros line Hin Hsp.
  unfold pieces in Hin. rewrite in_map_iff in Hin.
  destruct Hin as (k & <- & _).
  apply in_piece, pad_upper in Hsp. discriminate.
Qed.

Lemma wide_groups_leave_lines_unbroken_witness :
  0 < 12 /\ 0 < 5 /\ 5 <= 7 /\
  exists pad lines s',
    draw_pad 12 demo_src 0%nat = (inr pad, s') /\
    generate_one_time_pad 12 7 5 demo_src 0%nat = (inr lines, s') /\
    lines = pieces (Z.to_nat 5) pad /\
    forall line, In line lines -> ~ In space line.
Proof.
  split; [reflexivity|]. split; [reflexivity|]. split; [discriminate|].
  apply (wide_groups_leave_lines_unbroken demo_src 0%nat 12 7 5);
    [reflexivity | reflexivity | discriminate].
Defined.

(** C7: every call [generate_one_time_pad(12, 5, 10)] returns two lines;
    the first is two groups of five letters with one space between them,
    the second is the two remaining letters with no space. *)
Theorem twelve_five_ten src s :
  exists g1 g2 g3,
    generate_one_time_pad 12 5 10 src s
      = (inr [g1 ++ [space] ++ g2; g3], (s + 12)%nat) /\
    draw_pad 12 src s = (inr (g1 ++ g2 ++ g3), (s + 12)%nat) /\
    List.length g1 = 5%nat /\ List.length g2 = 5%nat /\
    List.length g3 = 2%nat /\
    Forall (fun c => is_upper c = true) (g1 ++ g2 ++ g3).
Proof.
  rewrite generate_eq, draw_pad_eq by lia.
  change (Z.to_nat 12) with 12%nat.
  change (Z.to_nat 5) with 5%nat. change (Z.to_nat 10) with 10%nat.
  exists (pad_of src s 5), (pad_of src (s + 5) 5), (pad_of src (s + 10) 2).
  assert (E : pad_of src s 12 =
              pad_of src s 5 ++ pad_of src (s + 5) 5 ++ pad_of src (s + 10) 2).
  { unfold pad_of. rewrite <- !map_app. f_equal.
    change 12%nat with (5 + (5 + 2))%nat.
    rewrite !seq_app. do 3 f_equal. lia. }
  split; [|split; [now rewrite E|]].
  - do 2 f_equal. unfold pad_of.
    replace (s + 5)%nat with (5 + s)%nat by lia.
    replace (s + 10)%nat with (10 + s)%nat by lia.
    reflexivity.
  - rewrite !length_pad_of. repeat split.
    rewrite <- E. apply Forall_forall. intros c Hc. eapply pad_upper, Hc.
Qed.

(** ** The formatting stage *)

Lemma generate_stages length group_size line_length src s :
  generate_one_time_pad length group_size line_length src s =
  (all_chars <- draw_pad length ;;
   format_lines all_chars length group_size line_length) src s.
Proof.
  unfold generate_one_time_pad, draw_pad, format_lines, bind, ret.
  destruct (range 0 length 1 src s) as [[e|idxs] s1]; [reflexivity|].
  destruct (mapM _ idxs src s1) as [[e|picks] s2]; reflexivity.
Qed.

Lemma entropy_free_ret {A} (a : A) : entropy_free (ret a).
Proof. exists (inr a). reflexivity. Qed.

Lemma entropy_free_bind {A B} (m : M A) (k : A -> M B) :
  entropy_free m -> (forall a, entropy_free (k a)) -> entropy_free (bind m k).
Proof.
  intros [[e|a] Hm] Hk.
  - exists (inl e). intros src s. unfold bind. now rewrite Hm.
  - destruct (Hk a) as [r Hr]. exists r. intros src s.
    unfold bind. now rewrite Hm.
Qed.

Lemma entropy_free_range start stop step : entropy_free (range start stop step).
Proof.
  unfold range. destruct (step =? 0); eexists; intros; reflexivity.
Qed.

Lemma entropy_free_mapM {A B} (f : A -> M B) (l : list A) :
  (forall a, entropy_free (f a)) -> entropy_free (mapM f l).
Proof.
  intros Hf. induction l as [|a l IH]; [apply entropy_free_ret|].
  simpl. apply entropy_free_bind; [apply Hf|]. intros b.
  apply entropy_free_bind; [apply IH|]. intros bs. apply entropy_free_ret.
Qed.

Lemma entropy_free_format all_chars length group_size line_length :
  entropy_free (format_lines all_chars length group_size line_length).
Proof.
  unfold format_lines.
  apply entropy_free_bind; [apply entropy_free_range|]. intros starts.
  apply entropy_free_mapM. intros i.
  apply entropy_free_bind; [apply entropy_free_range|]. intros offsets.
  apply entropy_free_ret.
Qed.

(** Within the function, formatting is [formatted] applied to the pad. *)
Lemma generate_formatted length group_size line_length src s pad s' :
  0 <= length ->
  draw_pad length src s = (inr pad, s') ->
  generate_one_time_pad length group_size line_length src s =
  (formatted pad group_size line_length, s').
Proof.
  intros Hl Hd.
  rewrite generate_stages, (bind_ok _ _ _ _ _ _ Hd).
  assert (len pad = length) as E.
  { rewrite draw_pad_eq in Hd. injection Hd as <- _.
    unfold len. rewrite length_pad_of. lia. }
  unfold formatted. rewrite E.
  destruct (entropy_free_format pad length group_size line_length) as [r Hr].
  now rewrite !Hr.
Qed.

(** C8: the formatting stage is a function of the pad, [group_size] and
    [line_length]: two runs that drew the same pad and were given the same
    [group_size] and [line_length] return the same thing, namely
    [formatted] of these three values.  Lengths are non-negative, as a
    symbol count is. *)
Theorem formatting_depends_on_pad_only
    group_size line_length pad
    length1 src1 s1 s1' length2 src2 s2 s2' :
  0 <= length1 -> 0 <= length2 ->
  draw_pad length1 src1 s1 = (inr pad, s1') ->
  draw_pad length2 src2 s2 = (inr pad, s2') ->
  generate_one_time_pad length1 group_size line_length src1 s1
    = (formatted pad group_size line_length, s1') /\
  generate_one_time_pad length2 group_size line_length src2 s2
    = (formatted pad group_size line_length, s2').
Proof.
  intros H1 H2 D1 D2. split; now apply generate_formatted.
Qed.

Lemma formatting_depends_on_pad_only_witness :
  0 <= 12 /\ 0 <= 12 /\
  draw_pad 12 demo_src 0%nat = (inr (lit "DKRYFMTAHOVC"), 12%nat) /\
  draw_pad 12 other_src 5%nat = (inr (lit "DKRYFMTAHOVC"), 17%nat) /\
  generate_one_time_pad 12 5 10 demo_src 0%nat
    = (formatted (lit "DKRYFMTAHOVC") 5 10, 12%nat) /\
  generate_one_time_pad 12 5 10 other_src 5%nat
    = (formatted (lit "DKRYFMTAHOVC") 5 10, 17%nat).
Proof.
  split; [discriminate|]. split; [discriminate|].
  split; [reflexivity|]. split; [reflexivity|].
  apply (formatting_depends_on_pad_only 5 10 (lit "DKRYFMTAHOVC")
           12 demo_src 0%nat 12%nat 12 other_src 5%nat 17%nat);
    solve [discriminate | reflexivity].
Defined.

(** Outside the documented domain the loop bound [length] is an input of
    its own: two negative lengths draw the same (empty) pad and return
    different numbers of empty lines. *)
Example negative_length_counts_lines :
  draw_pad (-5) demo_src 0%nat = draw_pad (-1) demo_src 0%nat /\
  generate_one_time_pad (-5) 3 (-2) demo_src 0%nat = (inr [[]; []; []], 0%nat) /\
  generate_one_time_pad (-1) 3 (-2) demo_src 0%nat = (inr [[]], 0%nat).
Proof. repeat split. Qed.

(** Without validation a zero [group_size] or [line_length] makes [range]
    raise, after the pad has been drawn. *)
Example zero_step_raises :
  generate_one_time_pad 7 0 10 demo_src 0%nat = (inl ValueError, 7%nat) /\
  generate_one_time_pad 7 3 0 demo_src 0%nat = (inl ValueError, 7%nat).
Proof. split; reflexivity. Qed.

(** ** Input validation in [on_generate] *)

Section Validation.
Variable int : str -> option Z.

Lemma parse_fields_set_output text a :
  parse_fields int (set_output text a) = parse_fields int a.
Proof. reflexivity. Qed.

(** C9: when one of the three fields is not an integer, or is zero or
    negative, the handler opens one error dialog and stops: the generator
    is not called, no entropy is consumed, nothing escapes as an
    exception, and the text widget is left empty. *)
Theorem invalid_input_is_rejected (a : app) src s :
  bad_field int (length_var a) = true \/
  bad_field int (group_size_var a) = true \/
  bad_field int (line_length_var a) = true ->
  exists title message,
    on_generate int a src s =
    (None,
     record (ShowError title message) (set_output [] a),
     s).
Proof.
  unfold bad_field, on_generate. rewrite parse_fields_set_output.
  unfold parse_fields. intros H.
  destruct (int (length_var a)) as [length|];
    [|eexists; eexists; reflexivity].
  destruct (int (group_size_var a)) as [group_size|];
    [|eexists; eexists; reflexivity].
  destruct (int (line_length_var a)) as [line_length|];
    [|eexists; eexists; reflexivity].
  destruct H as [-> | [-> | ->]];
    rewrite ?orb_true_r; eexists; eexists; reflexivity.
Qed.
End Validation.

Lemma invalid_input_is_rejected_witness :
  (bad_field decimal_int (length_var (demo_app "0" "5" "ten")) = true \/
   bad_field decimal_int (group_size_var (demo_app "0" "5" "ten")) = true \/
   bad_field decimal_int (line_length_var (demo_app "0" "5" "ten")) = true) /\
  exists title message,
    on_generate decimal_int (demo_app "0" "5" "ten") demo_src 0%nat =
    (None,
     record (ShowError title message)
       (set_output [] (demo_app "0" "5" "ten")),
     0%nat).
Proof.
  split; [left; reflexivity|].
  apply (invalid_input_is_rejected decimal_int (demo_app "0" "5" "ten")
           demo_src 0%nat).
  left; reflexivity.
Defined.

Example valid_input_is_generated :
  on_generate decimal_int (demo_app "12" "5" "10") demo_src 0%nat =
  (None,
   {| length_var := lit "12"; group_size_var := lit "5";
      line_length_var := lit "10";
      output_text := lit "DKRYF MTAHO" ++ [newline] ++ lit "VC" ++ [newline];
      events := [CallGenerate 12 5 10] |},
   12%nat).
Proof. reflexivity. Qed.

Example decimal_int_examples :
  decimal_int (lit "-3") = Some (-3) /\ decimal_int (lit "4.5") = None /\
  decimal_int (lit "") = None /\ decimal_int (lit "0012") = Some 12.
Proof. repeat split. Qed.

(** ** [generate_one_time_pad] on any integers

    The function itself checks nothing: what follows is what it does with
    arguments the handler would have refused. *)

Lemma mapM_first_fails {A B} (f : A -> M B) a l e src s :
  f a src s = (inl e, s) -> mapM f (a :: l) src s = (inl e, s).
Proof. intros H. cbn [mapM]. now rewrite (bind_err _ _ _ _ _ _ H). Qed.

Lemma generate_after_draw length group_size line_length src s :
  generate_one_time_pad length group_size line_length src s =
  format_lines (pad_of src s (Z.to_nat length)) length group_size line_length
    src (s + Z.to_nat length)%nat.
Proof.
  rewrite generate_stages.
  now rewrite (bind_ok _ _ _ _ _ _ (draw_pad_eq length src s)).
Qed.

Lemma range_empty start stop step src s :
  step <> 0 ->
  (if 0 <? step then stop <= start else start <= stop) ->
  range start stop step src s = (inr [], s).
Proof.
  intros Hz H. unfold range, range_length.
  destruct (Z.eqb_spec step 0); [contradiction|].
  destruct (Z.ltb_spec 0 step).
  - destruct (Z.ltb_spec start stop); [lia|reflexivity].
  - destruct (Z.ltb_spec stop start); [lia|reflexivity].
Qed.

(** The line loop, for a non-negative [length] and a positive
    [line_length]: one iteration per chunk. *)
Lemma format_lines_loop pad length group_size line_length src s :
  0 <= length -> 0 < line_length ->
  format_lines pad length group_size line_length src s =
  mapM (fun i =>
          let line_segment := slice pad i (i + line_length) in
          offsets <- range 0 (len line_segment) group_size ;;
          ret (join [space]
                 (map (fun j => slice line_segment j (j + group_size))
                    offsets)))
       (map (fun k => Z.of_nat (k * Z.to_nat line_length))
            (seq 0 (piece_count (Z.to_nat line_length) (Z.to_nat length))))
       src s.
Proof.
  intros Hl Hn. unfold format_lines.
  erewrite bind_ok; [reflexivity|].
  rewrite <- (range_from_zero (Z.to_nat length) (Z.to_nat line_length) src s)
    by lia.
  now rewrite !Z2Nat.id by lia.
Qed.

(** Every call consumes one raw value per requested symbol, and none for a
    negative [length], whether it returns or raises. *)
Theorem entropy_consumed length group_size line_length src s :
  snd (generate_one_time_pad length group_size line_length src s)
  = (s + Z.to_nat length)%nat.
Proof.
  rewrite generate_after_draw.
  destruct (entropy_free_format (pad_of src s (Z.to_nat length))
              length group_size line_length) as [r Hr].
  now rewrite Hr.
Qed.

(** A zero [line_length] raises [ValueError], whatever the other
    arguments, after the pad has been drawn. *)
Theorem zero_line_length_raises length group_size src s :
  generate_one_time_pad length group_size 0 src s
  = (inl ValueError, (s + Z.to_nat length)%nat).
Proof. rewrite generate_after_draw. reflexivity. Qed.

(** A zero [group_size] raises [ValueError] as soon as there is a line to
    format. *)
Theorem zero_group_size_raises length line_length src s :
  0 < length -> 0 < line_length ->
  generate_one_time_pad length 0 line_length src s
  = (inl ValueError, (s + Z.to_nat length)%nat).
Proof.
  intros Hl Hn. rewrite generate_after_draw.
  rewrite format_lines_loop by lia.
  set (pad := pad_of _ _ _). set (s' := (s + _)%nat).
  destruct (Z.to_nat length) as [|a] eqn:E; [lia|].
  simpl piece_count. rewrite <- cons_seq. cbn [map].
  now apply mapM_first_fails.
Qed.

Lemma zero_group_size_raises_witness :
  0 < 7 /\ 0 < 10 /\
  generate_one_time_pad 7 0 10 demo_src 0%nat
  = (inl ValueError, (0 + Z.to_nat 7)%nat).
Proof.
  split; [reflexivity|]. split; [reflexivity|].
  apply (zero_group_size_raises 7 10 demo_src 0%nat); reflexivity.
Defined.

(** A negative [group_size] raises nothing: the letters are dropped and
    every line comes back empty. *)
Theorem negative_group_size_blanks_lines
    length group_size line_length src s :
  0 < length -> group_size < 0 -> 0 < line_length ->
  generate_one_time_pad length group_size line_length src s
  = (inr (repeat [] (Z.to_nat (ceil_div length line_length))),
     (s + Z.to_nat length)%nat).
Proof.
  intros Hl Hg Hn. rewrite generate_after_draw.
  rewrite format_lines_loop by lia.
  rewrite (mapM_pure _ (fun _ : Z => ([] : str))).
  - rewrite map_const, length_map, length_seq.
    do 3 f_equal.
    apply Nat2Z.inj. rewrite piece_count_ceil by lia.
    rewrite !Z2Nat.id; try lia.
    pose proof (ceil_div_spec length line_length Hn). nia.
  - intros i _. cbv zeta.
    rewrite (bind_ok _ _ _ _ [] (s + Z.to_nat length)%nat); [reflexivity|].
    apply range_empty; [lia|].
    destruct (Z.ltb_spec 0 group_size); [lia|]. unfold len. lia.
Qed.

Lemma negative_group_size_blanks_lines_witness :
  0 < 7 /\ -3 < 0 /\ 0 < 4 /\
  generate_one_time_pad 7 (-3) 4 demo_src 0%nat
  = (inr (repeat [] (Z.to_nat (ceil_div 7 4))), (0 + Z.to_nat 7)%nat).
Proof.
  split; [reflexivity|]. split; [reflexivity|]. split; [reflexivity|].
  apply (negative_group_size_blanks_lines 7 (-3) 4 demo_src 0%nat);
    reflexivity.
Defined.

(** A negative [line_length] with a non-negative [length] returns no line
    at all: the pad is drawn and thrown away, and [group_size] is never
    looked at. *)
Theorem negative_line_length_drops_pad
    length group_size line_length src s :
  0 <= length -> line_length < 0 ->
  generate_one_time_pad length group_size line_length src s
  = (inr [], (s + Z.to_nat length)%nat).
Proof.
  intros Hl Hn. rewrite generate_after_draw. unfold format_lines.
  rewrite (bind_ok _ _ _ _ [] (s + Z.to_nat length)%nat); [reflexivity|].
  apply range_empty; [lia|].
  destruct (Z.ltb_spec 0 line_length); lia.
Qed.

Lemma negative_line_length_drops_pad_witness :
  0 <= 7 /\ -2 < 0 /\
  generate_one_time_pad 7 0 (-2) demo_src 0%nat
  = (inr [], (0 + Z.to_nat 7)%nat).
Proof.
  split; [discriminate|]. split; [reflexivity|].
  apply (negative_line_length_drops_pad 7 0 (-2) demo_src 0%nat);
    [discriminate | reflexivity].
Defined.

(** With [length <= 0] and a positive [line_length] nothing is drawn and
    nothing is returned, for every [group_size], zero included. *)
Theorem nothing_requested_nothing_drawn
    length group_size line_length src s :
  length <= 0 -> 0 < line_length ->
  generate_one_time_pad length group_size line_length src s = (inr [], s).
Proof.
  intros Hl Hn. rewrite generate_after_draw. unfold format_lines.
  replace (Z.to_nat length) with 0%nat by lia. rewrite Nat.add_0_r.
  rewrite (bind_ok _ _ _ _ [] s); [reflexivity|].
  apply range_empty; [lia|].
  destruct (Z.ltb_spec 0 line_length); lia.
Qed.

Lemma nothing_requested_nothing_drawn_witness :
  -4 <= 0 /\ 0 < 10 /\
  generate_one_time_pad (-4) 0 10 demo_src 3%nat = (inr [], 3%nat).
Proof.
  split; [discriminate|]. split; [reflexivity|].
  apply (nothing_requested_nothing_drawn (-4) 0 10 demo_src 3%nat);
    [discriminate | reflexivity].
Defined.

(** ** Shape of the lines for valid arguments *)

Lemma join_first (sep p : str) (rest : list str) c r :
  p = c :: r -> exists r', join sep (p :: rest) = c :: r'.
Proof.
  intros ->. destruct rest as [|q rest]; simpl; eexists; reflexivity.
Qed.

Lemma join_last (sep : str) (parts : list str) r c :
  last parts [] = r ++ [c] -> exists r', join sep parts = r' ++ [c].
Proof.
  induction parts as [|p rest IH]; intros H.
  - destruct r; discriminate.
  - destruct rest as [|q rest].
    + simpl in *. now exists r.
    + destruct (IH H) as [r' Hr'].
      exists (p ++ sep ++ r').
      change (join sep (p :: q :: rest))
        with (p ++ sep ++ join sep (q :: rest)).
      now rewrite Hr', <- !app_assoc.
Qed.

Lemma length_join (sep : str) (parts : list str) :
  List.length (join sep parts) =
  (List.length (concat parts)
   + List.length sep * (List.length parts - 1))%nat.
Proof.
  induction parts as [|p rest IH]; [simpl; lia|].
  destruct rest as [|q rest].
  - simpl. rewrite app_nil_r. lia.
  - change (join sep (p :: q :: rest))
      with (p ++ sep ++ join sep (q :: rest)).
    rewrite !length_app, IH. simpl concat. rewrite !length_app.
    simpl List.length. nia.
Qed.

Lemma nonempty_ends {X} (l : list X) :
  (0 < List.length l)%nat ->
  (exists c r, l = c :: r) /\ (exists r c, l = r ++ [c]).
Proof.
  intros H. split.
  - destruct l as [|c r]; [simpl in H; lia|]. now exists c, r.
  - destruct (exists_last (l := l)) as (r & c & E).
    + intros ->. simpl in H; lia.
    + now exists r, c.
Qed.

(** A formatted line begins and ends with a symbol of its segment. *)
Lemma grouped_ends (g : nat) (seg : str) :
  (0 < g)%nat -> (0 < List.length seg)%nat ->
  (exists c r, join [space] (pieces g seg) = c :: r /\ In c seg) /\
  (exists r c, join [space] (pieces g seg) = r ++ [c] /\ In c seg).
Proof.
  intros Hg Hs. unfold pieces.
  destruct (piece_count g (List.length seg)) as [|m] eqn:E;
    [pose proof (piece_count_pos g _ Hs); lia|].
  split.
  - rewrite <- cons_seq. cbn [map].
    destruct (nonempty_ends (piece g seg 0)) as [(c & r & Hc) _].
    { apply piece_nonempty; [assumption|lia]. }
    destruct (join_first [space] _ (map (piece g seg) (seq 1 m)) c r Hc)
      as [r' Hr'].
    exists c, r'. split; [exact Hr'|].
    apply (in_piece c g 0 seg). rewrite Hc. now left.
  - destruct (nonempty_ends (piece g seg m)) as [_ (r & c & Hc)].
    { apply piece_nonempty; [assumption|lia]. }
    destruct (join_last [space] (map (piece g seg) (seq 0 (S m))) r c)
      as [r' Hr'].
    { now rewrite last_pieces. }
    exists r', c. split; [exact Hr'|].
    apply (in_piece c g m seg). rewrite Hc.
    apply in_or_app; right; now left.
Qed.

Lemma format_pad_line_ends (g n a : nat) src s line :
  (0 < g)%nat -> (0 < n)%nat ->
  In line (format_pad g n (pad_of src s a)) ->
  (exists c r, line = c :: r /\ is_upper c = true) /\
  (exists r c, line = r ++ [c] /\ is_upper c = true).
Proof.
  intros Hg Hn Hin. unfold format_pad in Hin.
  rewrite in_map_iff in Hin. destruct Hin as (seg & <- & Hseg).
  unfold pieces in Hseg. rewrite in_map_iff in Hseg.
  destruct Hseg as (k & <- & Hk). rewrite in_seq in Hk.
  set (pad := pad_of src s a) in *.
  assert (Hne : (0 < List.length (piece n pad k))%nat)
    by (apply (piece_nonempty n); lia).
  destruct (grouped_ends g (piece n pad k) Hg Hne)
    as [(c & r & E & Hc) (r' & c' & E' & Hc')].
  split.
  - exists c, r. split; [exact E|]. eapply pad_upper, in_piece, Hc.
  - exists r', c'. split; [exact E'|]. eapply pad_upper, in_piece, Hc'.
Qed.

(** For valid arguments every line begins with a letter and ends with a
    letter: no line is empty, none has a blank at either end. *)
Theorem lines_have_letters_at_both_ends
    src s length group_size line_length :
  0 < length -> 0 < group_size -> 0 < line_length ->
  exists lines s',
    generate_one_time_pad length group_size line_length src s
      = (inr lines, s') /\
    forall line, In line lines ->
      is_upper (hd space line) = true /\
      is_upper (last line space) = true.
Proof.
  intros Hl Hg Hn. eexists; eexists.
  split; [apply generate_eq; lia|].
  intros line Hin.
  apply format_pad_line_ends in Hin; [|lia|lia].
  destruct Hin as [(c & r & -> & Hc) (r' & c' & E' & Hc')].
  split; [exact Hc|]. now rewrite E', last_last.
Qed.

Lemma lines_have_letters_at_both_ends_witness :
  0 < 12 /\ 0 < 5 /\ 0 < 10 /\
  exists lines s',
    generate_one_time_pad 12 5 10 demo_src 0%nat = (inr lines, s') /\
    forall line, In line lines ->
      is_upper (hd space line) = true /\
      is_upper (last line space) = true.
Proof.
  split; [reflexivity|]. split; [reflexivity|]. split; [reflexivity|].
  apply (lines_have_letters_at_both_ends demo_src 0%nat 12 5 10);
    reflexivity.
Defined.

(** For valid arguments a line of [m] symbols is [m + ceil(m / group_size)
    - 1] characters wide: one space after each group but the last. *)
Theorem line_width src s length group_size line_length :
  0 < length -> 0 < group_size -> 0 < line_length ->
  exists lines s',
    generate_one_time_pad length group_size line_length src s
      = (inr lines, s') /\
    forall k, (k < List.length lines)%nat ->
      len (nth k lines []) =
      len (strip (nth k lines []))
      + ceil_div (len (strip (nth k lines []))) group_size - 1.
Proof.
  intros Hl Hg Hn. eexists; eexists.
  split; [apply generate_eq; lia|].
  set (n := Z.to_nat line_length). set (g := Z.to_nat group_size).
  set (pad := pad_of src s (Z.to_nat length)).
  assert (Hn' : (0 < n)%nat) by (subst n; lia).
  assert (Hg' : (0 < g)%nat) by (subst g; lia).
  intros k Hk. rewrite length_format in Hk.
  rewrite nth_format, strip_grouped by assumption.
  rewrite strip_clean.
  2:{ intros c Hc. eapply upper_non_space, pad_upper, in_piece, Hc. }
  unfold len. rewrite length_join, concat_pieces, length_pieces by assumption.
  replace group_size with (Z.of_nat g) by (subst g; lia).
  rewrite <- piece_count_ceil by assumption.
  pose proof (piece_nonempty n Hn' pad k Hk) as Hne.
  pose proof (piece_count_pos g _ Hne).
  simpl List.length. lia.
Qed.

Lemma line_width_witness :
  0 < 12 /\ 0 < 5 /\ 0 < 10 /\
  exists lines s',
    generate_one_time_pad 12 5 10 demo_src 0%nat = (inr lines, s') /\
    forall k, (k < List.length lines)%nat ->
      len (nth k lines []) =
      len (strip (nth k lines []))
      + ceil_div (len (strip (nth k lines []))) 5 - 1.
Proof.
  split; [reflexivity|]. split; [reflexivity|]. split; [reflexivity|].
  apply (line_width demo_src 0%nat 12 5 10); reflexivity.
Defined.

Lemma strip_lines (g n : nat) src s a :
  (0 < g)%nat ->
  map strip (format_pad g n (pad_of src s a)) = pieces n (pad_of src s a).
Proof.
  intros Hg. unfold format_pad. rewrite map_map.
  rewrite <- (map_id (pieces n _)) at 2.
  apply map_ext_in. intros seg Hin.
  rewrite strip_grouped by assumption.
  apply strip_clean. intros c Hc.
  unfold pieces in Hin. rewrite in_map_iff in Hin.
  destruct Hin as (k & <- & _).
  eapply upper_non_space, pad_upper, in_piece, Hc.
Qed.

(** The group size changes the spacing and nothing else: from the same
    entropy, two valid group sizes give lines that are equal, line by
    line, once the spaces are removed. *)
Theorem group_size_only_changes_spacing
    src s length group_size1 group_size2 line_length :
  0 < length -> 0 < group_size1 -> 0 < group_size2 -> 0 < line_length ->
  exists lines1 lines2 s',
    generate_one_time_pad length group_size1 line_length src s
      = (inr lines1, s') /\
    generate_one_time_pad length group_size2 line_length src s
      = (inr lines2, s') /\
    map strip lines1 = map strip lines2.
Proof.
  intros Hl H1 H2 Hn. eexists; eexists; eexists.
  split; [apply generate_eq; lia|].
  split; [apply generate_eq; lia|].
  now rewrite !strip_lines by lia.
Qed.

Lemma group_size_only_changes_spacing_witness :
  0 < 12 /\ 0 < 5 /\ 0 < 3 /\ 0 < 10 /\
  exists lines1 lines2 s',
    generate_one_time_pad 12 5 10 demo_src 0%nat = (inr lines1, s') /\
    generate_one_time_pad 12 3 10 demo_src 0%nat = (inr lines2, s') /\
    map strip lines1 = map strip lines2.
Proof.
  split; [reflexivity|]. split; [reflexivity|]. split; [reflexivity|].
  split; [reflexivity|].
  apply (group_size_only_changes_spacing demo_src 0%nat 12 5 3 10);
    reflexivity.
Defined.

(** ** Even grouping *)




(** ** Calls in sequence *)

Lemma piece_count_step (n b : nat) :
  (0 < n)%nat -> piece_count n (n + b) = S (piece_count n b).
Proof.
  intros Hn. destruct n as [|n']; [lia|].
  destruct b as [|b'].
  - rewrite Nat.add_0_r. unfold piece_count. now rewrite Nat.div_small by lia.
  - replace (S n' + S b')%nat with (S (1 * S n' + b')) by lia.
    unfold piece_count. now rewrite Nat.div_add_l by lia.
Qed.

Lemma pieces_cons (n : nat) (x r : str) :
  (0 < n)%nat -> List.length x = n -> pieces n (x ++ r) = x :: pieces n r.
Proof.
  intros Hn Hx. unfold pieces.
  rewrite length_app, Hx, piece_count_step by assumption.
  rewrite <- cons_seq, <- seq_shift. cbn [map]. rewrite map_map. f_equal.
  - unfold piece. simpl skipn.
    rewrite firstn_app, Hx, Nat.sub_diag, firstn_all2 by lia.
    simpl. apply app_nil_r.
  - apply map_ext. intros i. unfold piece.
    replace (S i * n)%nat with (i * n + n)%nat by lia.
    rewrite <- skipn_skipn.
    rewrite skipn_app, Hx, Nat.sub_diag.
    rewrite (@skipn_all2 _ n x) by lia. reflexivity.
Qed.

Lemma pieces_app (n k : nat) (x y : str) :
  (0 < n)%nat -> List.length x = (k * n)%nat ->
  pieces n (x ++ y) = pieces n x ++ pieces n y.
Proof.
  intros Hn. revert x. induction k as [|k IH]; intros x Hx.
  - destruct x; [reflexivity|discriminate].
  - rewrite <- (firstn_skipn n x), <- app_assoc.
    assert (H1 : List.length (firstn n x) = n)
      by (rewrite length_firstn; simpl in Hx; lia).
    rewrite (pieces_cons n (firstn n x) (skipn n x ++ y)) by assumption.
    rewrite (pieces_cons n (firstn n x) (skipn n x)) by assumption.
    rewrite IH by (rewrite length_skipn; simpl in Hx; lia).
    reflexivity.
Qed.

Lemma pad_of_app src s a b :
  pad_of src s (a + b) = pad_of src s a ++ pad_of src (s + a) b.
Proof. unfold pad_of. now rewrite seq_app, map_app. Qed.

(** A call for a whole number of lines followed by a second call returns,
    from the same entropy, what one call for the total length returns:
    the pad can be produced in instalments. *)
Theorem calls_in_sequence src s k m group_size line_length :
  0 <= k -> 0 <= m -> 0 < group_size -> 0 < line_length ->
  exists lines1 lines2 s1 s2,
    generate_one_time_pad (k * line_length) group_size line_length src s
      = (inr lines1, s1) /\
    generate_one_time_pad m group_size line_length src s1
      = (inr lines2, s2) /\
    generate_one_time_pad (k * line_length + m) group_size line_length src s
      = (inr (lines1 ++ lines2), s2).
Proof.
  intros Hk Hm Hg Hn. do 4 eexists.
  split; [apply generate_eq; nia|].
  split; [apply generate_eq; lia|].
  rewrite generate_eq by nia.
  rewrite Z2Nat.inj_add, Z2Nat.inj_mul by nia.
  rewrite pad_of_app, Nat.add_assoc. f_equal. f_equal.
  unfold format_pad.
  rewrite (pieces_app _ (Z.to_nat k)), map_app; [reflexivity|lia|].
  apply length_pad_of.
Qed.

Lemma calls_in_sequence_witness :
  0 <= 2 /\ 0 <= 7 /\ 0 < 3 /\ 0 < 5 /\
  exists lines1 lines2 s1 s2,
    generate_one_time_pad (2 * 5) 3 5 demo_src 0%nat = (inr lines1, s1) /\
    generate_one_time_pad 7 3 5 demo_src s1 = (inr lines2, s2) /\
    generate_one_time_pad (2 * 5 + 7) 3 5 demo_src 0%nat
      = (inr (lines1 ++ lines2), s2).
Proof.
  split; [discriminate|]. split; [discriminate|].
  split; [reflexivity|]. split; [reflexivity|].
  apply (calls_in_sequence demo_src 0%nat 2 7 3 5);
    solve [discriminate | reflexivity].
Defined.

(** ** What [on_generate] shows *)

Lemma insert_lines (lines : list str) (a : app) :
  fold_left (fun a line => insert_end (line ++ [newline]) a) lines a =
  set_output
    (output_text a ++ concat (map (fun line => line ++ [newline]) lines)) a.
Proof.
  revert a. induction lines as [|l lines IH]; intros a.
  - simpl. rewrite app_nil_r. now destruct a.
  - simpl. rewrite IH. unfold insert_end, set_output. simpl.
    now rewrite <- app_assoc.
Qed.

Section Handler.
Variable int : str -> option Z.

(** With three fields that read as positive integers the handler calls the
    generator once with these values, opens no dialog, and replaces the
    text of the widget by the returned lines, each followed by a newline. *)
Theorem valid_input_is_displayed (a : app) src s length group_size line_length :
  int (length_var a) = Some length ->
  int (group_size_var a) = Some group_size ->
  int (line_length_var a) = Some line_length ->
  0 < length -> 0 < group_size -> 0 < line_length ->
  exists lines s',
    generate_one_time_pad length group_size line_length src s
      = (inr lines, s') /\
    on_generate int a src s =
    (None,
     {| length_var := length_var a;
        group_size_var := group_size_var a;
        line_length_var := line_length_var a;
        output_text := concat (map (fun line => line ++ [newline]) lines);
        events := events a ++ [CallGenerate length group_size line_length] |},
     s').
Proof.
  intros E1 E2 E3 Hl Hg Hn. eexists; eexists.
  split; [apply generate_eq; lia|].
  unfold on_generate. rewrite parse_fields_set_output.
  unfold parse_fields. rewrite E1, E2, E3.
  destruct (Z.leb_spec length 0); [lia|].
  destruct (Z.leb_spec group_size 0); [lia|].
  destruct (Z.leb_spec line_length 0); [lia|].
  cbn [orb]. rewrite generate_eq by lia.
  rewrite insert_lines. reflexivity.
Qed.

(** Whatever the fields hold, no exception escapes the handler: the
    generator is only reached with arguments it accepts. *)
Theorem on_generate_never_raises (a : app) src s :
  fst (fst (on_generate int a src s)) = None.
Proof.
  unfold on_generate.
  destruct (parse_fields int (set_output [] a)) as [[[l g] n]|];
    [|reflexivity].
  destruct (Z.leb_spec l 0); [reflexivity|].
  destruct (Z.leb_spec g 0); [reflexivity|].
  destruct (Z.leb_spec n 0); [reflexivity|].
  cbn [orb]. now rewrite generate_eq by lia.
Qed.

(** A field that does not read as an integer gives the "valid integers"
    message, also when another field is zero or negative. *)
Theorem unreadable_field_message (a : app) src s :
  int (length_var a) = None \/
  int (group_size_var a) = None \/
  int (line_length_var a) = None ->
  on_generate int a src s =
  (None,
   record
     (ShowError "Invalid Input"
        "Please enter valid integers for Length, Group Size, and Line Length.")
     (set_output [] a),
   s).
Proof.
  intros H. unfold on_generate. rewrite parse_fields_set_output.
  unfold parse_fields.
  destruct (int (length_var a)); [|reflexivity].
  destruct (int (group_size_var a)); [|reflexivity].
  destruct (int (line_length_var a)); [|reflexivity].
  destruct H as [H | [H | H]]; discriminate.
Qed.

(** Three integers of which one is zero or negative give the "positive
    integers" message. *)
Theorem non_positive_field_message
    (a : app) src s length group_size line_length :
  int (length_var a) = Some length ->
  int (group_size_var a) = Some group_size ->
  int (line_length_var a) = Some line_length ->
  length <= 0 \/ group_size <= 0 \/ line_length <= 0 ->
  on_generate int a src s =
  (None,
   record (ShowError "Invalid Input" "Values must be positive integers.")
     (set_output [] a),
   s).
Proof.
  intros E1 E2 E3 H. unfold on_generate. rewrite parse_fields_set_output.
  unfold parse_fields. rewrite E1, E2, E3.
  assert ((length <=? 0) || (group_size <=? 0) || (line_length <=? 0) = true)
    as ->; [|reflexivity].
  rewrite !orb_true_iff, !Z.leb_le. tauto.
Qed.
End Handler.

Lemma valid_input_is_displayed_witness :
  decimal_int (length_var (demo_app "12" "5" "10")) = Some 12 /\
  decimal_int (group_size_var (demo_app "12" "5" "10")) = Some 5 /\
  decimal_int (line_length_var (demo_app "12" "5" "10")) = Some 10 /\
  0 < 12 /\ 0 < 5 /\ 0 < 10 /\
  exists lines s',
    generate_one_time_pad 12 5 10 demo_src 0%nat = (inr lines, s') /\
    on_generate decimal_int (demo_app "12" "5" "10") demo_src 0%nat =
    (None,
     {| length_var := length_var (demo_app "12" "5" "10");
        group_size_var := group_size_var (demo_app "12" "5" "10");
        line_length_var := line_length_var (demo_app "12" "5" "10");
        output_text := concat (map (fun line => line ++ [newline]) lines);
        events := events (demo_app "12" "5" "10") ++ [CallGenerate 12 5 10] |},
     s').
Proof.
  do 6 (split; [reflexivity|]).
  apply (valid_input_is_displayed decimal_int (demo_app "12" "5" "10")
           demo_src 0%nat 12 5 10); reflexivity.
Defined.

Lemma unreadable_field_message_witness :
  (decimal_int (length_var (demo_app "-3" "5" "ten")) = None \/
   decimal_int (group_size_var (demo_app "-3" "5" "ten")) = None \/
   decimal_int (line_length_var (demo_app "-3" "5" "ten")) = None) /\
  on_generate decimal_int (demo_app "-3" "5" "ten") demo_src 0%nat =
  (None,
   record
     (ShowError "Invalid Input"
        "Please enter valid integers for Length, Group Size, and Line Length.")
     (set_output [] (demo_app "-3" "5" "ten")),
   0%nat).
Proof.
  split; [right; right; reflexivity|].
  apply (unreadable_field_message decimal_int (demo_app "-3" "5" "ten")
           demo_src 0%nat).
  right; right; reflexivity.
Defined.

Lemma non_positive_field_message_witness :
  decimal_int (length_var (demo_app "12" "0" "10")) = Some 12 /\
  decimal_int (group_size_var (demo_app "12" "0" "10")) = Some 0 /\
  decimal_int (line_length_var (demo_app "12" "0" "10")) = Some 10 /\
  (12 <= 0 \/ 0 <= 0 \/ 10 <= 0) /\
  on_generate decimal_int (demo_app "12" "0" "10") demo_src 0%nat =
  (None,
   record (ShowError "Invalid Input" "Values must be positive integers.")
     (set_output [] (demo_app "12" "0" "10")),
   0%nat).
Proof.
  do 3 (split; [reflexivity|]).
  split; [right; left; discriminate|].
  apply (non_positive_field_message decimal_int (demo_app "12" "0" "10")
           demo_src 0%nat 12 0 10); try reflexivity.
  right; left; discriminate.
Defined.

(** ** Stripping blanks *)

Lemma upper_not_blank c : is_upper c = true -> is_space c = false.
Proof.
  destruct c as [[|] [|] [|] [|] [|] [|] [|] [|]]; vm_compute; congruence.
Qed.

Lemma lstrip_blanks (a b : str) :
  (forall c, In c a -> is_space c = true) -> lstrip (a ++ b) = lstrip b.
Proof.
  induction a as [|c a IH]; intros H; [reflexivity|].
  simpl. rewrite (H c) by now left.
  apply IH. intros d Hd. apply H. now right.
Qed.

Lemma lstrip_head (s : str) c t : lstrip s = c :: t -> is_space c = false.
Proof.
  induction s as [|d s IH]; [discriminate|].
  simpl. destruct (is_space d) eqn:E; [exact IH|].
  intros [= <- _]. exact E.
Qed.

Lemma lstrip_snoc (a : str) c :
  is_space c = false -> lstrip (a ++ [c]) = lstrip a ++ [c].
Proof.
  intros Hc. induction a as [|d a IH]; simpl.
  - now rewrite Hc.
  - destruct (is_space d); [exact IH|reflexivity].
Qed.

Lemma rstrip_cons (c : ascii) (t : str) :
  is_space c = false -> rstrip (c :: t) = c :: rstrip t.
Proof.
  intros Hc. unfold rstrip. simpl rev.
  now rewrite lstrip_snoc, rev_app_distr.
Qed.

Lemma rstrip_last (s r : str) c : rstrip s = r ++ [c] -> is_space c = false.
Proof.
  unfold rstrip. intros H. apply (f_equal (@rev ascii)) in H.
  rewrite rev_involutive, rev_app_distr in H. simpl in H.
  eapply lstrip_head, H.
Qed.

(** What [strip] returns is empty, or has a character that is not blank
    at each end. *)
Lemma str_strip_ends (s : str) :
  str_strip s = [] \/
  (exists c t, str_strip s = c :: t /\ is_space c = false) /\
  (exists r c, str_strip s = r ++ [c] /\ is_space c = false).
Proof.
  unfold str_strip.
  destruct (lstrip s) as [|c t] eqn:E; [left; reflexivity|right].
  pose proof (lstrip_head _ _ _ E) as Hc.
  rewrite rstrip_cons by assumption. split.
  - now exists c, (rstrip t).
  - destruct (exists_last (l := c :: rstrip t)) as (r & d & Ed);
      [discriminate|].
    exists r, d. split; [exact Ed|].
    rewrite <- rstrip_cons in Ed by assumption.
    eapply rstrip_last, Ed.
Qed.

(** Text that begins and ends with a character that is not blank comes
    back from [strip] without the blanks that follow it. *)
Lemma str_strip_trailing (text blanks : str) c r r' c' :
  text = c :: r -> text = r' ++ [c'] ->
  is_space c = false -> is_space c' = false ->
  (forall b, In b blanks -> is_space b = true) ->
  str_strip (text ++ blanks) = text.
Proof.
  intros E E' Hc Hc' Hb. unfold str_strip.
  assert (lstrip (text ++ blanks) = text ++ blanks) as ->
    by (rewrite E; simpl; now rewrite Hc).
  unfold rstrip. rewrite rev_app_distr, lstrip_blanks.
  - rewrite E', rev_app_distr. simpl. rewrite Hc'. simpl.
    now rewrite rev_involutive.
  - intros b Hin. apply Hb. now apply in_rev.
Qed.

Lemma lines_with_newlines (lines : list str) :
  lines <> [] ->
  concat (map (fun line => line ++ [newline]) lines)
  = join [newline] lines ++ [newline].
Proof.
  induction lines as [|l rest IH]; [contradiction|]. intros _.
  destruct rest as [|q rest].
  - simpl. now rewrite app_nil_r.
  - change (join [newline] (l :: q :: rest))
      with (l ++ [newline] ++ join [newline] (q :: rest)).
    change (concat (map (fun line => line ++ [newline]) (l :: q :: rest)))
      with ((l ++ [newline])
            ++ concat (map (fun line => line ++ [newline]) (q :: rest))).
    rewrite IH by discriminate.
    now rewrite <- !app_assoc.
Qed.

(** ** [on_save] *)

Lemma on_save_text (env : desktop) (a : app) (text : str) :
  str_strip (get_all a) = text -> text <> [] ->
  chosen_filename env <> [] ->
  on_save env a =
  AskSaveAsFilename "Save One-Time Pad" ::
  match write_file env (chosen_filename env) text with
  | None =>
      [WriteFile (chosen_filename env) text;
       ShowInfo "Success"
         (lit "Pad successfully saved to: " ++ chosen_filename env)]
  | Some reason => [ShowSaveError "Error Saving File" reason]
  end.
Proof.
  intros E Ht Hf. unfold on_save. rewrite E.
  destruct text as [|c t]; [contradiction|].
  destruct (chosen_filename env) as [|d f]; [contradiction|]. reflexivity.
Qed.

(** When the widget holds nothing but blanks (as before the first
    generation) the handler says so and does nothing else: no file dialog,
    no file. *)
Theorem nothing_to_save (env : desktop) (a : app) :
  (forall c, In c (output_text a) -> is_space c = true) ->
  on_save env a =
  [ShowInfo "No Data" (lit "No one-time pad generated to save.")].
Proof.
  intros H. unfold on_save, str_strip, get_all.
  rewrite lstrip_blanks by assumption. reflexivity.
Qed.

Lemma nothing_to_save_witness :
  (forall c, In c (output_text init_app) -> is_space c = true) /\
  on_save demo_desktop init_app =
  [ShowInfo "No Data" (lit "No one-time pad generated to save.")].
Proof.
  split; [intros c []|].
  apply (nothing_to_save demo_desktop init_app). intros c [].
Defined.

(** The handler writes at most one file: the one the user chose, and into
    it the text of the widget without the blanks around it, which is not
    empty and has no blank at either end.  After a cancelled dialog it
    writes nothing. *)
Theorem save_writes_only_the_shown_text
    (env : desktop) (a : app) filename content :
  In (WriteFile filename content) (on_save env a) ->
  filename = chosen_filename env /\ filename <> [] /\
  content = str_strip (get_all a) /\
  (exists c t, content = c :: t /\ is_space c = false) /\
  (exists r c, content = r ++ [c] /\ is_space c = false).
Proof.
  unfold on_save.
  destruct (str_strip_ends (get_all a)) as [E | [H1 H2]].
  - rewrite E. simpl. intros [H|[]]; discriminate.
  - destruct (str_strip (get_all a)) as [|c t] eqn:E.
    { destruct H1 as (? & ? & ? & _); discriminate. }
    destruct (chosen_filename env) as [|d f] eqn:F.
    { simpl. intros [H|[]]; discriminate. }
    destruct (write_file env (d :: f) (c :: t)); simpl.
    { intros [H|[H|[]]]; discriminate. }
    intros [H|[H|[H|[]]]]; try discriminate.
    injection H as <- <-.
    repeat split; try assumption; discriminate.
Qed.

Lemma save_writes_only_the_shown_text_witness :
  In (WriteFile (lit "pad.txt") (lit "AB CD"))
     (on_save demo_desktop (set_output (lit "AB CD ") init_app)) /\
  (lit "pad.txt" = chosen_filename demo_desktop /\ lit "pad.txt" <> [] /\
   lit "AB CD" = str_strip (get_all (set_output (lit "AB CD ") init_app)) /\
   (exists c t, lit "AB CD" = c :: t /\ is_space c = false) /\
   (exists r c, lit "AB CD" = r ++ [c] /\ is_space c = false)).
Proof.
  split; [right; left; reflexivity|].
  apply (save_writes_only_the_shown_text demo_desktop
           (set_output (lit "AB CD ") init_app)).
  right; left; reflexivity.
Defined.

(** ** Generate, then save *)

Lemma format_pad_nonempty (g n a : nat) src s :
  (0 < n)%nat -> (0 < a)%nat -> format_pad g n (pad_of src s a) <> [].
Proof.
  intros Hn Ha E. apply (f_equal (@List.length str)) in E.
  rewrite length_format, length_pad_of in E.
  pose proof (piece_count_pos n a Ha). simpl in E. lia.
Qed.

(** Lines that begin and end with letters, shown one per row, are read
    back by [strip] as the lines joined by newlines. *)
Lemma shown_lines_strip (g n a : nat) src s :
  (0 < g)%nat -> (0 < n)%nat -> (0 < a)%nat ->
  let lines := format_pad g n (pad_of src s a) in
  str_strip (concat (map (fun line => line ++ [newline]) lines) ++ [newline])
  = join [newline] lines /\ join [newline] lines <> [].
Proof.
  intros Hg Hn Ha lines.
  pose proof (format_pad_nonempty g n a src s Hn Ha) as Hne. fold lines in Hne.
  assert (Hends : forall line, In line lines ->
            (exists c r, line = c :: r /\ is_upper c = true) /\
            (exists r c, line = r ++ [c] /\ is_upper c = true))
    by (intros line; now apply format_pad_line_ends).
  rewrite lines_with_newlines, <- app_assoc by assumption.
  destruct lines as [|l0 rest] eqn:El; [contradiction|].
  destruct (Hends l0 ltac:(now left)) as [(c & r & E0 & Hc) _].
  destruct (join_first [newline] l0 rest c r E0) as [r0 J0].
  destruct (exists_last Hne) as (front & lz & Ez).
  destruct (Hends lz) as [_ (r' & c' & E1 & Hc')].
  { rewrite Ez. apply in_or_app; right; now left. }
  destruct (join_last [newline] (l0 :: rest) r' c') as [r1 J1].
  { now rewrite Ez, last_last. }
  split; [|rewrite J0; discriminate].
  apply (str_strip_trailing _ _ c r0 r1 c' J0 J1);
    try now apply upper_not_blank.
  intros b [<-|[<-|[]]]; reflexivity.
Qed.

Section GenerateThenSave.
Variable int : str -> option Z.

Lemma on_generate_output (a : app) src s length group_size line_length :
  int (length_var a) = Some length ->
  int (group_size_var a) = Some group_size ->
  int (line_length_var a) = Some line_length ->
  0 < length -> 0 < group_size -> 0 < line_length ->
  on_generate int a src s =
  (None,
   set_output
     (concat (map (fun line => line ++ [newline])
                (format_pad (Z.to_nat group_size) (Z.to_nat line_length)
                   (pad_of src s (Z.to_nat length)))))
     (record (CallGenerate length group_size line_length) a),
   (s + Z.to_nat length)%nat).
Proof.
  intros E1 E2 E3 Hl Hg Hn.
  unfold on_generate. rewrite parse_fields_set_output.
  unfold parse_fields. rewrite E1, E2, E3.
  destruct (Z.leb_spec length 0); [lia|].
  destruct (Z.leb_spec group_size 0); [lia|].
  destruct (Z.leb_spec line_length 0); [lia|].
  cbn [orb]. rewrite generate_eq by lia.
  rewrite insert_lines. reflexivity.
Qed.

(** Generate and then Save: with valid fields and a chosen file name, what
    is handed to the file is the returned lines joined by single newlines,
    with no newline at the end; the handler then reports success, or the
    reason of the failure when the file cannot be written. *)
Theorem generated_pad_is_saved
    (env : desktop) (a : app) src s length group_size line_length :
  int (length_var a) = Some length ->
  int (group_size_var a) = Some group_size ->
  int (line_length_var a) = Some line_length ->
  0 < length -> 0 < group_size -> 0 < line_length ->
  chosen_filename env <> [] ->
  exists lines s',
    generate_one_time_pad length group_size line_length src s
      = (inr lines, s') /\
    on_save env (snd (fst (on_generate int a src s))) =
    AskSaveAsFilename "Save One-Time Pad" ::
    match write_file env (chosen_filename env) (join [newline] lines) with
    | None =>
        [WriteFile (chosen_filename env) (join [newline] lines);
         ShowInfo "Success"
           (lit "Pad successfully saved to: " ++ chosen_filename env)]
    | Some reason => [ShowSaveError "Error Saving File" reason]
    end.
Proof.
  intros E1 E2 E3 Hl Hg Hn Hf. eexists; eexists.
  split; [apply generate_eq; lia|].
  rewrite (on_generate_output a src s length group_size line_length)
    by assumption.
  destruct (shown_lines_strip (Z.to_nat group_size) (Z.to_nat line_length)
              (Z.to_nat length) src s) as [S1 S2]; try lia.
  now apply on_save_text.
Qed.
End GenerateThenSave.

Lemma generated_pad_is_saved_witness :
  decimal_int (length_var (demo_app "12" "5" "10")) = Some 12 /\
  decimal_int (group_size_var (demo_app "12" "5" "10")) = Some 5 /\
  decimal_int (line_length_var (demo_app "12" "5" "10")) = Some 10 /\
  0 < 12 /\ 0 < 5 /\ 0 < 10 /\
  chosen_filename full_disk <> [] /\
  exists lines s',
    generate_one_time_pad 12 5 10 demo_src 0%nat = (inr lines, s') /\
    on_save full_disk
      (snd (fst (on_generate decimal_int (demo_app "12" "5" "10")
                   demo_src 0%nat))) =
    AskSaveAsFilename "Save One-Time Pad" ::
    match write_file full_disk (chosen_filename full_disk)
            (join [newline] lines) with
    | None =>
        [WriteFile (chosen_filename full_disk) (join [newline] lines);
         ShowInfo "Success"
           (lit "Pad successfully saved to: " ++ chosen_filename full_disk)]
    | Some reason => [ShowSaveError "Error Saving File" reason]
    end.
Proof.
  do 6 (split; [reflexivity|]). split; [discriminate|].
  apply (generated_pad_is_saved decimal_int full_disk
           (demo_app "12" "5" "10") demo_src 0%nat 12 5 10);
    solve [reflexivity | discriminate].
Defined.

Example saved_file_holds_the_lines :
  on_save demo_desktop
    (snd (fst (on_generate decimal_int (demo_app "12" "5" "10")
                 demo_src 0%nat))) =
  [AskSaveAsFilename "Save One-Time Pad";
   WriteFile (lit "pad.txt") (lit "DKRYF MTAHO" ++ [newline] ++ lit "VC");
   ShowInfo "Success" (lit "Pad successfully saved to: pad.txt")].
Proof. reflexivity. Qed.

(** ** The first click *)

Section Defaults.
Variable int : str -> option Z.
Hypothesis int_1000 : int (lit "1000") = Some 1000.
Hypothesis int_5 : int (lit "5") = Some 5.
Hypothesis int_50 : int (lit "50") = Some 50.

End Defaults.

